(** * Voyager: the itinerary composer and the conversation controller

    A shallow embedding of [src/App.tsx]: the pure function
    [generateItinerary] and the submission handler [handleSend] of the
    [App] component, with the properties of the specification stated and
    proved over them.

    Modelling conventions.
    - A JavaScript string is the [string] of the bytes of its UTF-8
      encoding, so the empty string is the only falsy string and
      concatenation is [String.append].
    - A JavaScript number that holds an integer (an array length, a loop
      counter, a parsed day count) is a [Z]; the embedding is exact on the
      safe-integer range.  The other numbers (coordinates, temperature,
      humidity) are only carried around, never computed with, so their
      type [Num] is a parameter.
    - An array is a [list]; [a[i]] is the lookup [a !! i], which is [None]
      where JavaScript yields [undefined]. *)

From Stdlib Require Import ZArith String Ascii Lia.
From stdpp Require Import base list.
From Equations Require Import Equations.

Local Open Scope Z_scope.

(** ** Strings *)

Notation "s +:+ t" := (String.append s t)
  (at level 60, right associativity) : string_scope.

(** The line feed that ends each line of the template literal. *)
Definition LF : ascii := "010"%char.
Definition nl : string := String LF EmptyString.

(** Truthiness of a string: every string but the empty one. *)
Definition truthy (s : string) : bool :=
  match s with
  | EmptyString => false
  | String _ _ => true
  end.

(** [s.split("\n")]: the pieces of [s] between line feeds. *)
Fixpoint lines (s : string) : list string :=
  match s with
  | EmptyString => [EmptyString]
  | String c rest =>
      if Ascii.eqb c LF then EmptyString :: lines rest
      else match lines rest with
           | [] => [String c EmptyString]
           | l :: ls => String c l :: ls
           end
  end.

(** A string with no line feed in it. *)
Fixpoint one_line (s : string) : bool :=
  match s with
  | EmptyString => true
  | String c rest => negb (Ascii.eqb c LF) && one_line rest
  end.

(** [s.startsWith(p)] *)
Fixpoint startsWith (p s : string) : bool :=
  match p, s with
  | EmptyString, _ => true
  | String a p', String b s' => Ascii.eqb a b && startsWith p' s'
  | String _ _, EmptyString => false
  end.

(** *** [String.prototype.trim]

    The white space and line terminators of ECMAScript, each as the bytes
    of its UTF-8 encoding: TAB, LF, VT, FF, CR, SP, U+00A0, U+1680,
    U+2000 to U+200A, U+2028, U+2029, U+202F, U+205F, U+3000, U+FEFF. *)
Definition bytes (l : list nat) : string :=
  fold_right (fun n s => String (ascii_of_nat n) s) EmptyString l.

Definition white_space : list string :=
  map bytes
    ([[9]; [10]; [11]; [12]; [13]; [32]; [194; 160]; [225; 154; 128]] ++
     map (fun n => [226; 128; n]) (seq 128 11) ++
     [[226; 128; 168]; [226; 128; 169]; [226; 128; 175]; [226; 129; 159];
      [227; 128; 128]; [239; 187; 191]])%nat.

(** [dropPrefix p s] is the rest of [s] after the prefix [p], if [s]
    starts with it. *)
Fixpoint dropPrefix (p s : string) : option string :=
  match p, s with
  | EmptyString, _ => Some s
  | String a p', String b s' =>
      if Ascii.eqb a b then dropPrefix p' s' else None
  | String _ _, EmptyString => None
  end.

(** The rest of [s] after one white-space character taken from [ws]. *)
Fixpoint dropOne (ws : list string) (s : string) : option string :=
  match ws with
  | [] => None
  | w :: ws' =>
      match dropPrefix w s with
      | Some rest => Some rest
      | None => dropOne ws' s
      end
  end.

Fixpoint dropWhile_ws (ws : list string) (fuel : nat) (s : string) : string :=
  match fuel with
  | O => s
  | S fuel' =>
      match dropOne ws s with
      | Some rest => dropWhile_ws ws fuel' rest
      | None => s
      end
  end.

Fixpoint reverse_string (s acc : string) : string :=
  match s with
  | EmptyString => acc
  | String c rest => reverse_string rest (String c acc)
  end.

Definition string_rev (s : string) : string := reverse_string s EmptyString.

Definition trimStart (s : string) : string :=
  dropWhile_ws white_space (String.length s) s.

Definition trimEnd (s : string) : string :=
  string_rev
    (dropWhile_ws (map string_rev white_space) (String.length s) (string_rev s)).

Definition trim (s : string) : string := trimEnd (trimStart s).

(** A string made only of the ASCII white space TAB, LF, VT, FF, CR and
    SP. *)
Definition ascii_white (c : ascii) : bool :=
  existsb (Ascii.eqb c) (map ascii_of_nat [9; 10; 11; 12; 13; 32]%nat).

Fixpoint all_white (s : string) : bool :=
  match s with
  | EmptyString => true
  | String c rest => ascii_white c && all_white rest
  end.

(** *** [parseInt] with no radix argument

    [None] stands for NaN.  Leading white space is skipped, one sign is
    read, a [0x] or [0X] prefix selects radix 16, and the longest prefix
    of digits of the radix is the value; with no digit the result is NaN. *)
Definition digit_value (radix : Z) (c : ascii) : option Z :=
  let n := Z.of_nat (nat_of_ascii c) in
  let v := if (48 <=? n) && (n <=? 57) then Some (n - 48)
           else if (97 <=? n) && (n <=? 122) then Some (n - 87)
           else if (65 <=? n) && (n <=? 90) then Some (n - 55)
           else None in
  match v with
  | Some d => if d <? radix then Some d else None
  | None => None
  end.

Fixpoint parse_digits (radix : Z) (s : string) (acc : option Z) : option Z :=
  match s with
  | EmptyString => acc
  | String c rest =>
      match digit_value radix c with
      | Some d =>
          parse_digits radix rest
            (Some (match acc with Some a => a * radix + d | None => d end))
      | None => acc
      end
  end.

Definition parseInt (str : string) : option Z :=
  let s := trimStart str in
  let '(sign, s) :=
    match s with
    | String "-"%char r => (-1, r)
    | String "+"%char r => (1, r)
    | _ => (1, s)
    end in
  let '(radix, s) :=
    match s with
    | String "0"%char (String x r) =>
        if Ascii.eqb x "x"%char || Ascii.eqb x "X"%char
        then (16, r) else (10, s)
    | _ => (10, s)
    end in
  match parse_digits radix s None with
  | Some n => Some (sign * n)
  | None => None
  end.

(** ** Arrays *)

(** [Array.prototype.slice(start, end)] on integer bounds: a negative
    bound counts from the end, both are clamped to the array, and an
    empty range gives the empty array. *)
Definition slice {A : Type} (l : list A) (start end_ : Z) : list A :=
  let len := Z.of_nat (length l) in
  let k := if start <? 0 then Z.max (len + start) 0 else Z.min start len in
  let final := if end_ <? 0 then Z.max (len + end_) 0 else Z.min end_ len in
  take (Z.to_nat (final - k)) (drop (Z.to_nat k) l).

(** [Math.ceil(a / b)] for integers [0 <= a] and [1 <= b].  (With
    [b <= 0] the loop of [generateItinerary] runs no iteration and the
    value is not used.) *)
Definition Math_ceil_div (a b : Z) : Z := (a + b - 1) / b.

Section Voyager.

Context {Num : Type}.

(** ** Data model *)

Record Place := mkPlace {
  name : string;
  categories : list string;
  formatted : string;
  place_id : string;
  place_lat : option Num;
  place_lon : option Num
}.

Record Location := mkLocation {
  lat : Num;
  lon : Num
}.

Record WeatherDay := mkWeatherDay {
  date : string;
  condition : string;
  icon : string;
  temp : Num;
  humidity : Num
}.

Record Message := mkMessage {
  text : string;
  isBot : bool;
  msg_attractions : option (list Place);
  msg_food : option (list Place);
  msg_itinerary : option (list string);
  msg_weather : option (list WeatherDay)
}.

(** ** The itinerary composer *)

(** [p?.name || fallback] *)
Definition name_or (p : option Place) (fallback : string) : string :=
  match p with
  | Some pl => if truthy (name pl) then name pl else fallback
  | None => fallback
  end.

(** The five roles of one day, in the order the template prints them. *)
Record Roles := mkRoles {
  morning : string;
  lunch : string;
  afternoon : string;
  dinner : string;
  evening : string
}.

Definition morning_label : string := "    🌅 Morning: Visit ".
Definition lunch_label : string := "    🍽️ Lunch: Enjoy at ".
Definition afternoon_label : string := "    🏞️ Afternoon: Head to ".
Definition dinner_label : string := "    🍴 Dinner: Dine at ".
Definition evening_label : string := "    🌙 Evening: Visit ".

Definition labels : list string :=
  [morning_label; lunch_label; afternoon_label; dinner_label; evening_label].

(** The template literal pushed for each day: it opens with a line feed
    and has one labelled line per role. *)
Definition template (r : Roles) : string :=
  (nl +:+ morning_label +:+ morning r +:+
   nl +:+ lunch_label +:+ lunch r +:+
   nl +:+ afternoon_label +:+ afternoon r +:+
   nl +:+ dinner_label +:+ dinner r +:+
   nl +:+ evening_label +:+ evening r)%string.

Definition morning_fallback : string := "Explore local neighborhood".
Definition afternoon_fallback : string := "Relax at a nearby café or park".
Definition lunch_fallback : string := "Local street food".
Definition dinner_fallback : string := "Try a local restaurant".
Definition evening_fallback : string := " Take a walk or catch a local event".

(** The roles of a day with no candidate at all. *)
Definition fallback_roles : Roles :=
  mkRoles morning_fallback lunch_fallback afternoon_fallback dinner_fallback
    evening_fallback.

Section Compose.

Variables (attractions food : list Place) (days : Z).

Definition perDayAttractions : Z :=
  Z.min 3 (Math_ceil_div (Z.of_nat (length attractions)) days).
Definition perDayFood : Z :=
  Z.min 3 (Math_ceil_div (Z.of_nat (length food)) days).

Definition dayAttractions (i : Z) : list Place :=
  slice attractions (i * perDayAttractions) ((i + 1) * perDayAttractions).
Definition dayFood (i : Z) : list Place :=
  slice food (i * perDayFood) ((i + 1) * perDayFood).

(** The body of the loop up to the [push]: the roles of day [i]. *)
Definition dayRoles (i : Z) : Roles :=
  {| morning := name_or (dayAttractions i !! 0%nat) morning_fallback;
     afternoon := name_or (dayAttractions i !! 1%nat) afternoon_fallback;
     lunch := name_or (dayFood i !! 0%nat) lunch_fallback;
     dinner := name_or (dayFood i !! 1%nat) dinner_fallback;
     evening := name_or (dayAttractions i !! 2%nat) evening_fallback |}.

(** [for (let i = 0; i < days; i++) itinerary.push(...)], from counter
    [i] and the array built so far. *)
Equations? for_loop (i : Z) (itinerary : list string) : list string
  by wf (Z.to_nat (days - i)) lt :=
  for_loop i itinerary with Z_lt_dec i days := {
    | left _ => for_loop (i + 1) (itinerary ++ [template (dayRoles i)]);
    | right _ => itinerary }.
Proof. lia. Qed.

Definition generateItinerary : list string := for_loop 0 [].

(** The entry the loop pushes for the day of index [k]. *)
Definition entry (k : nat) : string := template (dayRoles (Z.of_nat k)).

End Compose.

(** ** The conversation controller *)

(** The [step] of the dialogue: ['destination' | 'days']. *)
Inductive Step := StepDestination | StepDays.

(** The state variables of the [App] component. *)
Record State := mkState {
  messages : list Message;
  input : string;
  isLoading : bool;
  currentLocation : option Location;
  allPlaces : list Place;
  step : Step;
  destination : string;
  tripDays : option Z
}.

Definition setMessages (f : list Message -> list Message) (s : State) : State :=
  mkState (f (messages s)) (input s) (isLoading s) (currentLocation s)
    (allPlaces s) (step s) (destination s) (tripDays s).
Definition setInput (v : string) (s : State) : State :=
  mkState (messages s) v (isLoading s) (currentLocation s)
    (allPlaces s) (step s) (destination s) (tripDays s).
Definition setIsLoading (v : bool) (s : State) : State :=
  mkState (messages s) (input s) v (currentLocation s)
    (allPlaces s) (step s) (destination s) (tripDays s).
Definition setCurrentLocation (v : option Location) (s : State) : State :=
  mkState (messages s) (input s) (isLoading s) v
    (allPlaces s) (step s) (destination s) (tripDays s).
Definition setAllPlaces (v : list Place) (s : State) : State :=
  mkState (messages s) (input s) (isLoading s) (currentLocation s)
    v (step s) (destination s) (tripDays s).
Definition setStep (v : Step) (s : State) : State :=
  mkState (messages s) (input s) (isLoading s) (currentLocation s)
    (allPlaces s) v (destination s) (tripDays s).
Definition setDestination (v : string) (s : State) : State :=
  mkState (messages s) (input s) (isLoading s) (currentLocation s)
    (allPlaces s) (step s) v (tripDays s).
Definition setTripDays (v : option Z) (s : State) : State :=
  mkState (messages s) (input s) (isLoading s) (currentLocation s)
    (allPlaces s) (step s) (destination s) v.

(** A message with no attachment: [{ text, isBot }]. *)
Definition plain (t : string) (bot : bool) : Message :=
  mkMessage t bot None None None None.

Definition greeting : string :=
  "Hello! I'm your travel assistant. Where would you like to go?".
Definition not_found_text : string :=
  "I couldn't find that location. Please try again with a different destination.".
Definition validation_text : string :=
  "Please enter a valid number of days (e.g., 3, 5, 7).".
Definition failure_text : string :=
  "Sorry, something went wrong. Try again later.".
Definition prompt_text (input : string) : string :=
  ("Great! How many days will you be staying in " +:+ input +:+ "?")%string.
Definition plan_text (destination : string) : string :=
  ("Here's your travel plan for " +:+ destination +:+ "!")%string.

Definition sights : string := "tourism.sights,tourism.attraction".
Definition catering : string := "catering.restaurant,catering.fast_food".

(** The state of the component when it is mounted. *)
Definition initial : State :=
  mkState [plain greeting true] "" false None [] StepDestination "" None.

(** *** The network

    One record per [fetch]: the request that was sent.  The responses are
    an oracle; [None] is a [fetch] or a decoding that threw. *)
Inductive Call :=
| GeocodeCall (text : string)
| PlacesCall (location : Location) (category : string) (limit : Z)
| WeatherCall (lat lon : Num) (days : Z).

(** One element of [data.features], before the defaults are applied.
    The response is not typed: a name, the categories, the address and
    either coordinate ([geometry.coordinates[0]] and [[1]]) can be
    missing. *)
Record Feature := mkFeature {
  f_name : option string;
  f_categories : option (list string);
  f_formatted : option string;
  f_place_id : string;
  f_lon : option Num;
  f_lat : option Num
}.

Record Network := mkNetwork {
  geocode : string -> option (list Location);
  places : Location -> string -> Z -> option (list Feature);
  forecast : Num -> Num -> Z -> option (list WeatherDay)
}.

Section Controller.

Variable net : Network.

(** [fetchLocationCoordinates]: the first result, or [null]; whatever
    throws is caught and gives [null]. *)
Definition fetchLocationCoordinates (destination : string)
  : option Location * list Call :=
  (match geocode net destination with
   | Some (result :: _) => Some (mkLocation (lat result) (lon result))
   | Some [] => None
   | None => None
   end, [GeocodeCall destination]).

(** [x || d] on an optional string. *)
Definition string_or (x : option string) (d : string) : string :=
  match x with
  | Some v => if truthy v then v else d
  | None => d
  end.

Definition toPlace (feature : Feature) : Place :=
  mkPlace (string_or (f_name feature) "Unnamed Place")
          (match f_categories feature with Some c => c | None => [] end)
          (string_or (f_formatted feature) "")
          (f_place_id feature)
          (f_lat feature) (f_lon feature).

(** [fetchPlaces].  The whole body is in a [try]: with a [null] location
    reading [location.lon] throws before any request is sent, and that,
    like a failed request, gives the empty array. *)
Definition fetchPlaces (location : option Location) (category : string)
    (days : Z) : list Place * list Call :=
  match location with
  | None => ([], [])
  | Some loc =>
      (match places net loc category (days * 5) with
       | Some features => map toPlace features
       | None => []
       end, [PlacesCall loc category (days * 5)])
  end.

(** [fetchWeatherForecast] *)
Definition fetchWeatherForecast (lat lon : Num) (days : Z)
  : list WeatherDay * list Call :=
  (match forecast net lat lon days with
   | Some l => l
   | None => []
   end, [WeatherCall lat lon days]).

(** How a block of statements ends. *)
Inductive Completion := Normal | Thrown.

(** The body of the [try] of the day-count branch, run on the state [s]
    the handler was created with; [st] carries the updates made so far.
    With a [null] location, reading [location.lat] for the forecast
    throws, after [setAllPlaces]. *)
Definition try_body (s : State) (days : Z) (st : State)
  : Completion * State * list Call :=
  let location := currentLocation s in
  let '(attractions, calls1) := fetchPlaces location sights days in
  let '(food, calls2) := fetchPlaces location catering days in
  let itinerary := generateItinerary attractions food days in
  let st := setAllPlaces (attractions ++ food) st in
  match location with
  | None => (Thrown, st, calls1 ++ calls2)
  | Some loc =>
      let '(weather, calls3) := fetchWeatherForecast (lat loc) (lon loc) days in
      let botMessage :=
        mkMessage (plan_text (destination s)) true
          (Some attractions) (Some food) (Some itinerary) (Some weather) in
      let st := setMessages (fun prev => prev ++ [botMessage]) st in
      let st := setStep StepDestination st in
      (Normal, st, calls1 ++ calls2 ++ calls3)
  end.

(** [handleSend], run to completion on the state [s] it was created
    with: the state once all its updates are applied, and the requests it
    sent, in order. *)
Definition handleSend (s : State) : State * list Call :=
  if negb (truthy (trim (input s))) || isLoading s then (s, []) else
  let st := setIsLoading true s in
  let userMessage := plain (input s) false in
  let st := setMessages (fun prev => prev ++ [userMessage]) st in
  match step s with
  | StepDestination =>
      let '(location, calls) := fetchLocationCoordinates (input s) in
      match location with
      | Some loc =>
          let st := setDestination (input s) st in
          let st := setCurrentLocation (Some loc) st in
          let st := setStep StepDays st in
          let st := setInput "" st in
          let st := setMessages
                      (fun prev => prev ++ [plain (prompt_text (input s)) true])
                      st in
          (setIsLoading false st, calls)
      | None =>
          let st := setMessages
                      (fun prev => prev ++ [plain not_found_text true]) st in
          let st := setInput "" st in
          (setIsLoading false st, calls)
      end
  | StepDays =>
      let invalid :=
        let st := setMessages
                    (fun prev => prev ++ [plain validation_text true]) st in
        let st := setInput "" st in
        (setIsLoading false st, []) in
      match parseInt (trim (input s)) with
      | None => invalid
      | Some days =>
          if days <=? 0 then invalid else
          let st := setTripDays (Some days) st in
          let st := setInput "" st in
          let '(completion, st, calls) := try_body s days st in
          let st :=
            match completion with
            | Normal => st
            | Thrown =>
                setMessages (fun prev => prev ++ [plain failure_text true]) st
            end in
          (setIsLoading false st, calls)
      end
  end.

(** The state while the handler awaits its first response: the in-flight
    flag is up and the user's message is in the transcript. *)
Definition startSend (s : State) : State :=
  setMessages (fun prev => prev ++ [plain (input s) false])
    (setIsLoading true s).

End Controller.

(** The states the component can be in between two submissions: it is
    mounted in [initial], the user edits the text area, and a submission
    runs [handleSend] against whatever the network answers. *)
Inductive reachable : State -> Prop :=
| reach_initial : reachable initial
| reach_type (s : State) (v : string) :
    reachable s -> reachable (setInput v s)
| reach_send (net : Network) (s : State) :
    reachable s -> reachable (fst (handleSend net s)).

(** ** Vocabulary of the properties *)

(** No place of the list has a line feed in its name. *)
Definition names_one_line (l : list Place) : Prop :=
  Forall (fun p => one_line (name p) = true) l.

(** The roles of a record each fit on one line. *)
Definition roles_one_line (r : Roles) : Prop :=
  one_line (morning r) = true /\ one_line (lunch r) = true /\
  one_line (afternoon r) = true /\ one_line (dinner r) = true /\
  one_line (evening r) = true.

(** A day count the controller rejects: NaN, zero or negative. *)
Definition rejected_day_count (v : string) : bool :=
  match parseInt (trim v) with
  | Some days => days <=? 0
  | None => true
  end.

Definition is_validation (m : Message) : bool :=
  String.eqb (text m) validation_text && isBot m.

(** The messages of [l] come from the bot and from the user in turn,
    the first one from the bot if [bot] is [true]. *)
Fixpoint alternates (bot : bool) (l : list Message) : bool :=
  match l with
  | [] => true
  | m :: l' => Bool.eqb (isBot m) bot && alternates (negb bot) l'
  end.

(** A place with a name that is not empty. *)
Definition named (p : Place) : Prop := truthy (name p) = true.


End Voyager.

Arguments Place : clear implicits.
Arguments Location : clear implicits.
Arguments WeatherDay : clear implicits.
Arguments Message : clear implicits.
Arguments State : clear implicits.
Arguments Network : clear implicits.
Arguments Feature : clear implicits.
Arguments Call : clear implicits.

(** A line that starts with one of the five labels. *)
Definition labelled (l : string) : bool :=
  existsb (fun label => startsWith label l) labels.

(** The labelled lines of [s] are exactly five, and they carry the labels
    in the order morning, lunch, afternoon, dinner, evening. *)
Definition five_labelled_lines (s : string) : bool :=
  match List.filter labelled (lines s) with
  | [a; b; c; d; e] =>
      startsWith morning_label a && startsWith lunch_label b &&
      startsWith afternoon_label c && startsWith dinner_label d &&
      startsWith evening_label e
  | _ => false
  end.

(** ** Sample data *)

Definition place (n : string) : Place Z := mkPlace n [] "" "" None None.

Definition paris : Location Z := mkLocation 48 2.

(** A network that finds every destination in [paris] and answers every
    other request with an empty body. *)
Definition found : Network Z :=
  mkNetwork (fun _ => Some [paris]) (fun _ _ _ => Some []) (fun _ _ _ => Some []).

(** The state after the destination ["Paris"] was resolved. *)
Definition asked_days : State Z :=
  fst (handleSend found (setInput "Paris" initial)).

(** The state after the cycle ["Paris"], ["3"]. *)
Definition cycle_done : State Z :=
  fst (handleSend found (setInput "3" asked_days)).

(** A network whose places come with a name, with an empty name and with
    no name at all, and whose forecast fails. *)
Definition louvre : Network Z :=
  mkNetwork (fun _ => Some [paris])
    (fun _ _ _ =>
       Some [mkFeature (Some "Louvre"%string) None None "p1"%string
               (Some 2) (Some 48);
             mkFeature (Some ""%string) (Some []) (Some ""%string)
               "p2"%string (Some 3) (Some 49);
             mkFeature None None None "p3"%string None None])
    (fun _ _ _ => None).

(** A network on which every request fails. *)
Definition offline : Network Z :=
  mkNetwork (fun _ => None) (fun _ _ _ => None) (fun _ _ _ => None).

(** * Properties of the composer *)

(** ** The loop *)

Section Loop.

Context {Num : Type}.
Variables (attractions food : list (Place Num)) (days : Z).

Lemma for_loop_pushes (n : nat) :
  forall (i : nat) (itinerary : list string),
    Z.to_nat (days - Z.of_nat i) = n ->
    for_loop attractions food days (Z.of_nat i) itinerary =
    itinerary ++ map (entry attractions food days) (seq i n).
Proof.
  induction n as [|n IH]; intros i itinerary Hn; simp for_loop.
  - destruct (Z_lt_dec (Z.of_nat i) days) as [Hlt|Hge]; [lia|].
    simpl. now rewrite app_nil_r.
  - destruct (Z_lt_dec (Z.of_nat i) days) as [Hlt|Hge]; [|lia].
    simpl. replace (Z.of_nat i + 1) with (Z.of_nat (S i)) by lia.
    rewrite IH by lia. now rewrite <- app_assoc.
Qed.

Lemma generateItinerary_days :
  generateItinerary attractions food days =
  map (entry attractions food days) (seq 0 (Z.to_nat days)).
Proof.
  unfold generateItinerary.
  change 0 with (Z.of_nat 0).
  rewrite (for_loop_pushes (Z.to_nat days)) by (simpl; lia).
  reflexivity.
Qed.

Lemma generateItinerary_lookup (k : nat) :
  Z.of_nat k < days ->
  generateItinerary attractions food days !! k =
  Some (entry attractions food days k).
Proof.
  intros Hk. rewrite generateItinerary_days, list_lookup_fmap.
  rewrite lookup_seq_lt by lia. reflexivity.
Qed.

End Loop.

(** C1. For any two lists of places and any integer [days >= 1],
    [generateItinerary] returns exactly [days] entries, and the entry at
    index [k] is the one the loop body builds for day [k + 1]: the days come
    in ascending order.  The function is total, being defined by
    well-founded recursion on [days - i]. *)
Theorem generateItinerary_returns_days {Num : Type}
    (attractions food : list (Place Num)) (days : Z) :
  1 <= days ->
  Z.of_nat (length (generateItinerary attractions food days)) = days /\
  (forall k : nat, Z.of_nat k < days ->
     generateItinerary attractions food days !! k =
     Some (entry attractions food days k)).
Proof.
  intros Hdays. split.
  - rewrite generateItinerary_days, length_map, length_seq. lia.
  - intros k Hk. now apply generateItinerary_lookup.
Qed.

Lemma generateItinerary_returns_days_witness :
  Z.of_nat (length (generateItinerary [place "Louvre"] [] 2)) = 2 /\
  (forall k : nat, Z.of_nat k < 2 ->
     generateItinerary [place "Louvre"] [] 2 !! k =
     Some (entry [place "Louvre"] [] 2 k)).
Proof. apply generateItinerary_returns_days. lia. Defined.

(** ** Slices *)

Lemma slice_lookup {A : Type} (l : list A) (start end_ : Z) (j : nat) :
  0 <= start -> 0 <= end_ ->
  slice l start end_ !! j =
  if decide (start + Z.of_nat j < end_)
  then l !! (Z.to_nat start + j)%nat else None.
Proof.
  intros Hs He. unfold slice.
  destruct (Z.ltb_spec start 0) as [?|_]; [lia|].
  destruct (Z.ltb_spec end_ 0) as [?|_]; [lia|].
  rewrite lookup_take, lookup_drop.
  repeat case_decide; try reflexivity.
  - f_equal. lia.
  - lia.
  - symmetry. apply lookup_ge_None_2. lia.
Qed.

Lemma slice_length {A : Type} (l : list A) (start end_ : Z) :
  0 <= start -> 0 <= end_ ->
  (length (slice l start end_) <= Z.to_nat (end_ - start))%nat.
Proof.
  intros Hs He. unfold slice. rewrite length_take, length_drop.
  destruct (Z.ltb_spec start 0), (Z.ltb_spec end_ 0); lia.
Qed.

Lemma slice_nil {A : Type} (start end_ : Z) : slice (@nil A) start end_ = [].
Proof. unfold slice. now rewrite drop_nil, take_nil. Qed.

(** [Math_ceil_div a b] is the ceiling of [a / b]: the least [q] with
    [a <= q * b]. *)
Lemma Math_ceil_div_spec (a b q : Z) :
  0 < b -> (Math_ceil_div a b <= q <-> a <= q * b).
Proof.
  intros Hb. unfold Math_ceil_div. split; intros H.
  - pose proof (Z.mul_succ_div_gt (a + b - 1) b Hb). nia.
  - apply Z.lt_succ_r. apply Z.div_lt_upper_bound; lia.
Qed.

Lemma Math_ceil_div_1 (a : Z) : Math_ceil_div a 1 = a.
Proof. unfold Math_ceil_div. rewrite Z.div_1_r. lia. Qed.

(** ** Roles *)

(** C10. A place with an empty name in a filled slot does not give the
    slot its name: the role takes its fallback, because the name is
    tested for truthiness.  A place with a non-empty name gives its name.
    This holds for the five roles of every day [k] of the plan, whose
    entry is the template filled with these roles. *)
Theorem empty_name_takes_fallback {Num : Type}
    (attractions food : list (Place Num)) (days : Z) (k : nat)
    (p : Place Num) :
  Z.of_nat k < days ->
  let i := Z.of_nat k in
  let roles := dayRoles attractions food days i in
  generateItinerary attractions food days !! k = Some (template roles) /\
  (dayAttractions attractions days i !! 0%nat = Some p ->
   morning roles = if truthy (name p) then name p else morning_fallback) /\
  (dayAttractions attractions days i !! 1%nat = Some p ->
   afternoon roles = if truthy (name p) then name p else afternoon_fallback) /\
  (dayAttractions attractions days i !! 2%nat = Some p ->
   evening roles = if truthy (name p) then name p else evening_fallback) /\
  (dayFood food days i !! 0%nat = Some p ->
   lunch roles = if truthy (name p) then name p else lunch_fallback) /\
  (dayFood food days i !! 1%nat = Some p ->
   dinner roles = if truthy (name p) then name p else dinner_fallback).
Proof.
  intros Hk i roles. split.
  - now apply generateItinerary_lookup.
  - subst roles. unfold dayRoles. simpl.
    repeat split; intros ->; reflexivity.
Qed.

Lemma empty_name_takes_fallback_witness :
  generateItinerary [place ""; place "Louvre"] [place ""] 1 =
    [template
       (mkRoles morning_fallback lunch_fallback "Louvre" dinner_fallback
          evening_fallback)] /\
  morning (dayRoles [place ""; place "Louvre"] [place ""] 1 0) =
    morning_fallback.
Proof.
  split; [reflexivity|].
  refine (proj1 (proj2 (empty_name_takes_fallback
            [place ""; place "Louvre"] [place ""] 1 0 (place "") _)) _).
  - simpl. lia.
  - reflexivity.
Defined.

(** With no place at all, every day is the template filled with the
    fallbacks. *)
Lemma generateItinerary_no_places {Num : Type} (days : Z) :
  generateItinerary (@nil (Place Num)) [] days =
  replicate (Z.to_nat days) (template fallback_roles).
Proof.
  rewrite generateItinerary_days.
  generalize 0%nat. induction (Z.to_nat days) as [|n IH]; intros k; simpl.
  - reflexivity.
  - rewrite IH. f_equal.
    unfold entry, dayRoles, dayAttractions, dayFood.
    now rewrite !slice_nil.
Qed.

(** C3. On empty inputs the plan of one day is the template filled with
    the fallbacks of the code.  Four of them are the strings the
    specification gives; the evening fallback of the code starts with a
    space, so it is not the string of the specification, and the evening
    line reads [Visit] followed by two spaces. *)
Theorem evening_fallback_leading_space :
  generateItinerary (@nil (Place Z)) [] 1 = [template fallback_roles] /\
  morning fallback_roles = "Explore local neighborhood"%string /\
  afternoon fallback_roles = "Relax at a nearby café or park"%string /\
  lunch fallback_roles = "Local street food"%string /\
  dinner fallback_roles = "Try a local restaurant"%string /\
  evening fallback_roles = " Take a walk or catch a local event"%string /\
  evening fallback_roles <> "Take a walk or catch a local event"%string.
Proof.
  split; [apply (generateItinerary_no_places 1)|].
  repeat split. discriminate.
Qed.

(** On a trip of one day with three attractions or more, the day takes
    the first three attractions and the first [perDayFood] food places. *)
Lemma one_day_slices {Num : Type} (attractions food : list (Place Num))
    (j : nat) :
  (3 <= length attractions)%nat -> (2 <= length food)%nat -> (j < 2)%nat ->
  (forall j' : nat, (j' < 3)%nat ->
     dayAttractions attractions 1 0 !! j' = attractions !! j') /\
  dayFood food 1 0 !! j = food !! j.
Proof.
  intros HA HF Hj. split.
  - intros j' Hj'. unfold dayAttractions, perDayAttractions.
    rewrite Math_ceil_div_1, slice_lookup by lia.
    case_decide; [reflexivity | lia].
  - unfold dayFood, perDayFood.
    rewrite Math_ceil_div_1, slice_lookup by lia.
    case_decide; [reflexivity | lia].
Qed.

(** C4, as stated, fails: with an empty name in the first attraction the
    morning role is the fallback, not the name of [A[0]]. *)
Lemma one_day_roles_counterexample :
  ~ (forall A F : list (Place Z),
       (3 <= length A)%nat -> (2 <= length F)%nat ->
       exists a0 a1 a2 f0 f1,
         A !! 0%nat = Some a0 /\ A !! 1%nat = Some a1 /\
         A !! 2%nat = Some a2 /\
         F !! 0%nat = Some f0 /\ F !! 1%nat = Some f1 /\
         generateItinerary A F 1 =
         [template (mkRoles (name a0) (name f0) (name a1) (name f1)
                      (name a2))]).
Proof.
  intros H.
  destruct (H [place ""; place "Prado"; place "Retiro"]
              [place "Botin"; place "Lhardy"])
    as (a0 & a1 & a2 & f0 & f1 & H0 & H1 & H2 & H3 & H4 & E);
    [simpl; lia | simpl; lia |].
  simpl in H0, H1, H2, H3, H4.
  injection H0 as <-. injection H1 as <-. injection H2 as <-.
  injection H3 as <-. injection H4 as <-.
  vm_compute in E. discriminate E.
Qed.

(** C4, amended.  For [A] with three places or more and [F] with two or
    more, where the first three names of [A] and the first two of [F] are
    not empty, the plan of one day has [A[0]] as morning, [A[1]] as
    afternoon, [A[2]] as evening, [F[0]] as lunch and [F[1]] as dinner:
    every role is a name and none is a fallback. *)
Theorem one_day_roles {Num : Type} (A F : list (Place Num)) :
  (3 <= length A)%nat -> (2 <= length F)%nat ->
  (forall p, p ∈ take 3 A ++ take 2 F -> name p <> EmptyString) ->
  exists a0 a1 a2 f0 f1,
    A !! 0%nat = Some a0 /\ A !! 1%nat = Some a1 /\ A !! 2%nat = Some a2 /\
    F !! 0%nat = Some f0 /\ F !! 1%nat = Some f1 /\
    generateItinerary A F 1 =
    [template (mkRoles (name a0) (name f0) (name a1) (name f1) (name a2))].
Proof.
  intros HA HF Hnames.
  destruct (lookup_lt_is_Some_2 A 0) as [a0 H0]; [lia|].
  destruct (lookup_lt_is_Some_2 A 1) as [a1 H1]; [lia|].
  destruct (lookup_lt_is_Some_2 A 2) as [a2 H2]; [lia|].
  destruct (lookup_lt_is_Some_2 F 0) as [f0 H3]; [lia|].
  destruct (lookup_lt_is_Some_2 F 1) as [f1 H4]; [lia|].
  exists a0, a1, a2, f0, f1. repeat (split; [assumption|]).
  assert (HnA : forall j p, (j < 3)%nat -> A !! j = Some p ->
                            truthy (name p) = true).
  { intros j p Hj Hp. assert (Hne : name p <> EmptyString).
    { apply Hnames, elem_of_app. left. apply elem_of_take. eauto. }
    destruct (name p); [congruence | reflexivity]. }
  assert (HnF : forall j p, (j < 2)%nat -> F !! j = Some p ->
                            truthy (name p) = true).
  { intros j p Hj Hp. assert (Hne : name p <> EmptyString).
    { apply Hnames, elem_of_app. right. apply elem_of_take. eauto. }
    destruct (name p); [congruence | reflexivity]. }
  destruct (one_day_slices A F 0) as [Hat Hf0]; [lia ..|].
  destruct (one_day_slices A F 1) as [_ Hf1]; [lia ..|].
  rewrite generateItinerary_days.
  change (Z.to_nat 1) with 1%nat. cbn [seq map]. f_equal.
  unfold entry, dayRoles. change (Z.of_nat 0) with 0.
  rewrite !Hat, Hf0, Hf1, H0, H1, H2, H3, H4 by lia.
  unfold name_or.
  rewrite (HnA 0%nat a0), (HnA 1%nat a1), (HnA 2%nat a2),
    (HnF 0%nat f0), (HnF 1%nat f1) by (assumption || lia).
  reflexivity.
Qed.

Lemma one_day_roles_witness :
  exists a0 a1 a2 f0 f1,
    [place "Prado"; place "Retiro"; place "Rastro"; place "Sol"] !! 0%nat
      = Some a0 /\
    [place "Prado"; place "Retiro"; place "Rastro"; place "Sol"] !! 1%nat
      = Some a1 /\
    [place "Prado"; place "Retiro"; place "Rastro"; place "Sol"] !! 2%nat
      = Some a2 /\
    [place "Botin"; place "Lhardy"] !! 0%nat = Some f0 /\
    [place "Botin"; place "Lhardy"] !! 1%nat = Some f1 /\
    generateItinerary
      [place "Prado"; place "Retiro"; place "Rastro"; place "Sol"]
      [place "Botin"; place "Lhardy"] 1 =
    [template (mkRoles (name a0) (name f0) (name a1) (name f1) (name a2))].
Proof.
  apply one_day_roles.
  - simpl; lia.
  - simpl; lia.
  - intros p Hp. simpl in Hp.
    repeat (apply elem_of_cons in Hp as [-> | Hp]; [discriminate|]).
    now apply elem_of_nil in Hp.
Defined.

(** ** Distribution over the days *)

Section Distribution.

Context {A : Type}.
Variables (l : list A) (days perDay : Z).
Hypothesis Hdays : 1 <= days.
Hypothesis HperDay :
  perDay = Z.min 3 (Math_ceil_div (Z.of_nat (length l)) days).

Lemma perDay_bounds : 0 <= perDay <= 3.
Proof.
  rewrite HperDay. split; [|lia].
  apply Z.min_glb; [lia|].
  destruct (Z_lt_dec (Math_ceil_div (Z.of_nat (length l)) days) 0)
    as [Hneg|]; [|lia].
  assert (H : Math_ceil_div (Z.of_nat (length l)) days <= -1) by lia.
  apply Math_ceil_div_spec in H; lia.
Qed.

Lemma day_slice_cap (i : Z) :
  0 <= i -> (length (slice l (i * perDay) ((i + 1) * perDay)) <= 3)%nat.
Proof.
  intros Hi. pose proof perDay_bounds as Hp.
  etransitivity; [apply slice_length; nia|]. nia.
Qed.

Lemma day_slices_cover (x : A) :
  Z.of_nat (length l) <= 3 * days -> x ∈ l ->
  exists i, 0 <= i < days /\ x ∈ slice l (i * perDay) ((i + 1) * perDay).
Proof.
  intros Hlen Hx. apply list_elem_of_lookup in Hx as [k Hk].
  pose proof (lookup_lt_Some _ _ _ Hk) as Hklt.
  set (c := Math_ceil_div (Z.of_nat (length l)) days) in *.
  assert (Hc3 : c <= 3) by (apply Math_ceil_div_spec; lia).
  assert (Hcover : Z.of_nat (length l) <= c * days)
    by (apply (Math_ceil_div_spec _ days c); lia).
  assert (Hp : perDay = c) by lia.
  assert (Hpos : 0 < c) by nia.
  rewrite Hp.
  exists (Z.of_nat k / c). split.
  - split; [apply Z.div_pos; lia|].
    apply Z.div_lt_upper_bound; nia.
  - apply list_elem_of_lookup. exists (Z.to_nat (Z.of_nat k mod c)).
    pose proof (Z.mod_pos_bound (Z.of_nat k) c Hpos) as Hmod.
    pose proof (Z.div_mod (Z.of_nat k) c ltac:(lia)) as Hdm.
    assert (0 <= Z.of_nat k / c) by (apply Z.div_pos; lia).
    rewrite slice_lookup by nia.
    case_decide; [|nia].
    rewrite <- Hk. f_equal. nia.
Qed.

End Distribution.

(** C5, as stated, fails: with four attractions and one day the slice of
    the day is capped at three, and the fourth attraction is in no slice. *)
Lemma every_place_used_counterexample :
  ~ (forall (attractions : list (Place Z)) (days : Z), 1 <= days ->
       forall p, p ∈ attractions ->
         exists i, 0 <= i < days /\ p ∈ dayAttractions attractions days i).
Proof.
  intros H.
  destruct (H [place "Prado"; place "Retiro"; place "Rastro"; place "Sol"]
              1 ltac:(lia) (place "Sol")) as (i & Hi & Hin).
  - repeat constructor.
  - assert (i = 0) as -> by lia.
    vm_compute in Hin.
    repeat (apply elem_of_cons in Hin as [Hin | Hin]; [discriminate|]).
    now apply elem_of_nil in Hin.
Qed.

(** C5, amended.  For [days >= 1] the slice of every day has at most
    three attractions and at most three food places; and when a list has
    at most [3 * days] places, each of its places is in the slice of some
    day of the trip.  (Places beyond the first [3 * days] are left out.) *)
Theorem day_slices_cap_and_cover {Num : Type}
    (attractions food : list (Place Num)) (days : Z) :
  1 <= days ->
  (forall i, 0 <= i ->
     (length (dayAttractions attractions days i) <= 3)%nat /\
     (length (dayFood food days i) <= 3)%nat) /\
  (Z.of_nat (length attractions) <= 3 * days ->
   forall p, p ∈ attractions ->
     exists i, 0 <= i < days /\ p ∈ dayAttractions attractions days i) /\
  (Z.of_nat (length food) <= 3 * days ->
   forall p, p ∈ food ->
     exists i, 0 <= i < days /\ p ∈ dayFood food days i).
Proof.
  intros Hdays. repeat split.
  - now apply (day_slice_cap attractions days).
  - now apply (day_slice_cap food days).
  - intros Hlen p Hp. now apply (day_slices_cover attractions days).
  - intros Hlen p Hp. now apply (day_slices_cover food days).
Qed.

Lemma day_slices_cap_and_cover_witness :
  (forall i, 0 <= i ->
     (length (dayAttractions
                [place "Prado"; place "Retiro"; place "Rastro"; place "Sol"]
                2 i) <= 3)%nat /\
     (length (dayFood [place "Botin"] 2 i) <= 3)%nat) /\
  (Z.of_nat (length
               [place "Prado"; place "Retiro"; place "Rastro"; place "Sol"])
     <= 3 * 2 ->
   forall p,
     p ∈ [place "Prado"; place "Retiro"; place "Rastro"; place "Sol"] ->
     exists i, 0 <= i < 2 /\
       p ∈ dayAttractions
             [place "Prado"; place "Retiro"; place "Rastro"; place "Sol"]
             2 i) /\
  (Z.of_nat (length [place "Botin"]) <= 3 * 2 ->
   forall p, p ∈ [place "Botin"] ->
     exists i, 0 <= i < 2 /\ p ∈ dayFood [place "Botin"] 2 i).
Proof. apply day_slices_cap_and_cover. lia. Defined.

(** ** The lines of an entry *)

Lemma append_empty_r (s : string) : (s +:+ "")%string = s.
Proof. induction s as [|c s IH]; simpl; [reflexivity | now rewrite IH]. Qed.

Lemma lines_not_nil (s : string) : lines s <> [].
Proof.
  destruct s as [|c s]; simpl; [discriminate|].
  destruct (Ascii.eqb c LF); [discriminate|].
  destruct (lines s); discriminate.
Qed.

(** A prefix with no line feed stays on the first line. *)
Lemma lines_one_line_app (a s : string) :
  one_line a = true ->
  lines (a +:+ s) =
  match lines s with
  | first :: others => (a +:+ first)%string :: others
  | [] => []
  end.
Proof.
  induction a as [|c a IH]; simpl; intros Ha.
  - now destruct (lines s).
  - apply andb_prop in Ha as [Hc Ha]. apply negb_true_iff in Hc.
    rewrite Hc, (IH Ha).
    pose proof (lines_not_nil s). now destruct (lines s).
Qed.

Lemma lines_nl (s : string) : lines (nl +:+ s) = EmptyString :: lines s.
Proof. reflexivity. Qed.

(** A label and a role that hold no line feed, followed by the rest of
    the template, make one line. *)
Lemma lines_labelled_line (label role rest : string) :
  one_line label = true -> one_line role = true ->
  lines (label +:+ role +:+ nl +:+ rest) =
  (label +:+ role)%string :: lines rest.
Proof.
  intros Hl Hr.
  rewrite (lines_one_line_app label), (lines_one_line_app role), lines_nl
    by assumption.
  now rewrite append_empty_r.
Qed.

Lemma lines_last_line (label role : string) :
  one_line label = true -> one_line role = true ->
  lines (label +:+ role) = [(label +:+ role)%string].
Proof.
  intros Hl Hr. rewrite (lines_one_line_app label) by assumption.
  rewrite <- (append_empty_r role) at 1.
  rewrite (lines_one_line_app role) by assumption. simpl.
  now rewrite append_empty_r.
Qed.

Lemma lines_template (r : Roles) :
  roles_one_line r ->
  lines (template r) =
  [EmptyString;
   (morning_label +:+ morning r)%string;
   (lunch_label +:+ lunch r)%string;
   (afternoon_label +:+ afternoon r)%string;
   (dinner_label +:+ dinner r)%string;
   (evening_label +:+ evening r)%string].
Proof.
  intros (Hm & Hl & Ha & Hd & He). unfold template.
  rewrite lines_nl.
  rewrite !lines_labelled_line by (assumption || reflexivity).
  rewrite lines_last_line by (assumption || reflexivity).
  reflexivity.
Qed.

Lemma startsWith_app (p s : string) : startsWith p (p +:+ s) = true.
Proof.
  induction p as [|c p IH]; simpl; [reflexivity|].
  now rewrite Ascii.eqb_refl, IH.
Qed.

Lemma labelled_label (label s : string) :
  In label labels -> labelled (label +:+ s) = true.
Proof.
  intros Hin. unfold labelled. apply existsb_exists.
  exists label. split; [assumption | apply startsWith_app].
Qed.

Lemma five_labelled_lines_template (r : Roles) :
  roles_one_line r -> five_labelled_lines (template r) = true.
Proof.
  intros Hr. unfold five_labelled_lines.
  rewrite (lines_template r Hr).
  cbn [List.filter].
  change (labelled EmptyString) with false. cbv iota.
  rewrite !labelled_label by (simpl; tauto).
  now rewrite !startsWith_app.
Qed.

Lemma slice_elem {A : Type} (l : list A) (start end_ : Z) (j : nat) (x : A) :
  slice l start end_ !! j = Some x -> x ∈ l.
Proof.
  unfold slice. intros H.
  apply lookup_take_Some in H as [H _]. rewrite lookup_drop in H.
  eapply list_elem_of_lookup_2, H.
Qed.

Lemma name_or_one_line {Num : Type} (l : list (Place Num))
    (start end_ : Z) (j : nat) (fallback : string) :
  names_one_line l -> one_line fallback = true ->
  one_line (name_or (slice l start end_ !! j) fallback) = true.
Proof.
  intros Hl Hf. unfold name_or.
  destruct (slice l start end_ !! j) as [p|] eqn:E; [|assumption].
  destruct (truthy (name p)); [|assumption].
  apply slice_elem in E. unfold names_one_line in Hl.
  rewrite Forall_forall in Hl. now apply Hl.
Qed.

Lemma dayRoles_one_line {Num : Type} (attractions food : list (Place Num))
    (days i : Z) :
  names_one_line attractions -> names_one_line food ->
  roles_one_line (dayRoles attractions food days i).
Proof.
  intros HA HF. unfold roles_one_line, dayRoles, dayAttractions, dayFood.
  simpl. repeat split; now apply name_or_one_line.
Qed.

(** C2, as stated, fails: a name that holds a line feed followed by a
    label puts a sixth labelled line in the entry, out of order. *)
Lemma five_labelled_lines_counterexample :
  ~ (forall (attractions food : list (Place Z)) (days : Z), 1 <= days ->
       forall e, e ∈ generateItinerary attractions food days ->
         five_labelled_lines e = true).
Proof.
  intros H.
  specialize (H [place ("Prado" +:+ nl +:+ evening_label +:+ "Sol")] [] 1
                ltac:(lia) _ (list_elem_of_here _ _)).
  vm_compute in H. discriminate H.
Qed.

(** C2, amended.  When no place name holds a line feed, every entry of
    the plan is an empty first line followed by exactly five lines, which
    are the morning, lunch, afternoon, dinner and evening lines in this
    order, each made of its label and the text of its role; these are the
    labelled lines of the entry. *)
Theorem entries_have_five_labelled_lines {Num : Type}
    (attractions food : list (Place Num)) (days : Z) (e : string) :
  names_one_line attractions -> names_one_line food ->
  e ∈ generateItinerary attractions food days ->
  five_labelled_lines e = true /\
  exists r : Roles,
    lines e =
    [EmptyString;
     (morning_label +:+ morning r)%string;
     (lunch_label +:+ lunch r)%string;
     (afternoon_label +:+ afternoon r)%string;
     (dinner_label +:+ dinner r)%string;
     (evening_label +:+ evening r)%string].
Proof.
  intros HA HF He.
  rewrite generateItinerary_days in He.
  apply list_elem_of_fmap in He as (k & -> & _).
  pose proof (dayRoles_one_line attractions food days (Z.of_nat k) HA HF)
    as Hr.
  split.
  - now apply five_labelled_lines_template.
  - eexists. now apply lines_template.
Qed.

Lemma entries_have_five_labelled_lines_witness :
  five_labelled_lines (entry [place "Prado"] [place "Botin"] 2 0) = true /\
  exists r : Roles,
    lines (entry [place "Prado"] [place "Botin"] 2 0) =
    [EmptyString;
     (morning_label +:+ morning r)%string;
     (lunch_label +:+ lunch r)%string;
     (afternoon_label +:+ afternoon r)%string;
     (dinner_label +:+ dinner r)%string;
     (evening_label +:+ evening r)%string].
Proof.
  apply (entries_have_five_labelled_lines [place "Prado"] [place "Botin"] 2).
  - repeat constructor.
  - repeat constructor.
  - vm_compute. apply list_elem_of_here.
Defined.

(** * Properties of the controller *)

Lemma asked_days_reachable : reachable asked_days.
Proof. apply reach_send, reach_type, reach_initial. Qed.

Lemma cycle_done_reachable : reachable cycle_done.
Proof. apply reach_send, reach_type, asked_days_reachable. Qed.

(** One submission keeps the implication from the day-count step to a
    stored location. *)
Lemma handleSend_keeps_location {Num : Type} (net : Network Num)
    (s : State Num) :
  (step s = StepDays -> is_Some (currentLocation s)) ->
  step (fst (handleSend net s)) = StepDays ->
  is_Some (currentLocation (fst (handleSend net s))).
Proof.
  intros Hs. unfold handleSend.
  destruct (negb (truthy (trim (input s))) || isLoading s); [exact Hs|].
  destruct (step s) eqn:Hstep.
  - unfold fetchLocationCoordinates.
    destruct (geocode net (input s)) as [[|result results]|]; simpl;
      solve [congruence | eauto].
  - specialize (Hs eq_refl).
    destruct (parseInt (trim (input s))) as [days|]; [|simpl; auto].
    destruct (days <=? 0); [simpl; auto|].
    unfold try_body.
    destruct (currentLocation s) as [loc|] eqn:Hloc.
    + simpl. discriminate.
    + now destruct Hs.
Qed.

(** Every path through the handler ends with the in-flight flag down. *)
Lemma handleSend_lowers_flag {Num : Type} (net : Network Num)
    (s : State Num) :
  isLoading s = false -> isLoading (fst (handleSend net s)) = false.
Proof.
  intros Hload. unfold handleSend. rewrite Hload, orb_false_r.
  destruct (negb (truthy (trim (input s)))); [assumption|].
  destruct (step s).
  - unfold fetchLocationCoordinates.
    now destruct (geocode net (input s)) as [[|result results]|].
  - destruct (parseInt (trim (input s))) as [days|]; [|reflexivity].
    destruct (days <=? 0); [reflexivity|].
    unfold try_body. now destruct (currentLocation s).
Qed.

(** Between two submissions no request is in flight. *)
Lemma reachable_at_rest {Num : Type} (s : State Num) :
  reachable s -> isLoading s = false.
Proof.
  induction 1 as [|s v Hr IH|net s Hr IH].
  - reflexivity.
  - exact IH.
  - now apply handleSend_lowers_flag.
Qed.

(** C6, as stated, fails: after the cycle ["Paris"], ["3"] the step is
    back to the destination step and the location of Paris is still
    stored. *)
Lemma location_iff_days_step_counterexample :
  ~ (forall s : State Z,
       reachable s -> (is_Some (currentLocation s) <-> step s = StepDays)).
Proof.
  intros H. destruct (H cycle_done cycle_done_reachable) as [Hstep _].
  assert (E : step cycle_done = StepDays) by (apply Hstep; vm_compute; eauto).
  vm_compute in E. discriminate E.
Qed.

(** C6, amended.  In every reachable state, if the step is the day-count
    step then a location is stored.  (The converse holds only until the
    first destination is resolved: the location is never cleared.) *)
Theorem days_step_has_location {Num : Type} (s : State Num) :
  reachable s -> step s = StepDays -> is_Some (currentLocation s).
Proof.
  induction 1 as [|s v Hr IH|net s Hr IH].
  - discriminate.
  - exact IH.
  - now apply handleSend_keeps_location.
Qed.

Lemma days_step_has_location_witness : is_Some (currentLocation asked_days).
Proof.
  apply days_step_has_location.
  - apply reach_send, reach_type, reach_initial.
  - reflexivity.
Defined.

(** Whether the [try] block throws does not depend on the updates made
    before it. *)
Lemma try_body_completion {Num : Type} (net : Network Num)
    (s st st' : State Num) (days : Z) :
  fst (fst (try_body net s days st)) = fst (fst (try_body net s days st')).
Proof.
  unfold try_body, fetchPlaces, fetchWeatherForecast.
  now destruct (currentLocation s).
Qed.


(** C8, as stated, fails: a blank day count is not numeric, and the
    guard at the top of the handler drops it without any message. *)
Lemma rejected_day_count_counterexample :
  ~ (forall (net : Network Z) (s : State Z),
       reachable s -> step s = StepDays ->
       rejected_day_count (input s) = true ->
       exists new,
         messages (fst (handleSend net s)) = messages s ++ new /\
         length (List.filter is_validation new) = 1%nat).
Proof.
  intros H.
  destruct (H found (setInput " " asked_days)) as (new & Hnew & Hcount).
  - apply reach_type, asked_days_reachable.
  - reflexivity.
  - reflexivity.
  - change (messages (fst (handleSend found (setInput " " asked_days))))
      with (messages (setInput " " asked_days)) in Hnew.
    rewrite <- (app_nil_r (messages _)) in Hnew at 1.
    apply app_inv_head in Hnew. subst new. discriminate Hcount.
Qed.

(** C8, amended.  In the day-count step, with no submission in flight, a
    day count that is not blank and is NaN, zero or negative (as ["0"],
    ["-3"] and ["abc"] are) sends no request and changes the state in two
    ways only: the user's message and exactly one validation message are
    appended, and the text area is cleared; the step, the stored location
    and the rest are as before.  A blank day count is dropped with no
    message.  A submission that sends a request has a day count that
    parses as a positive integer. *)
Theorem rejected_day_count_keeps_state {Num : Type} (net : Network Num)
    (s : State Num) :
  step s = StepDays -> isLoading s = false ->
  (rejected_day_count (input s) = true ->
   handleSend net s =
   if truthy (trim (input s))
   then (setInput ""
           (setMessages
              (fun prev =>
                 prev ++ [plain (input s) false; plain validation_text true])
              s), [])
   else (s, [])) /\
  (snd (handleSend net s) <> [] ->
   exists days, parseInt (trim (input s)) = Some days /\ 0 < days) /\
  Forall (fun v => rejected_day_count v = true /\ truthy (trim v) = true)
    ["0"; "-3"; "abc"]%string.
Proof.
  intros Hstep Hload. unfold handleSend, rejected_day_count.
  rewrite Hstep, Hload, orb_false_r.
  destruct (truthy (trim (input s))); simpl negb; cbv iota.
  - destruct (parseInt (trim (input s))) as [days|].
    + destruct (Z.leb_spec days 0) as [Hle|Hgt].
      * repeat split; [| now intros [] | repeat constructor].
        intros _. destruct s; unfold setIsLoading, setInput, setMessages;
          simpl in *; subst; now rewrite <- app_assoc.
      * repeat split; [discriminate | eauto | repeat constructor].
    + repeat split; [| now intros [] | repeat constructor].
      intros _. destruct s; unfold setIsLoading, setInput, setMessages;
        simpl in *; subst; now rewrite <- app_assoc.
  - repeat split; [now intros [] | repeat constructor].
Qed.

Lemma rejected_day_count_keeps_state_witness :
  handleSend found (setInput "-3" asked_days) =
  (setInput ""
     (setMessages
        (fun prev => prev ++ [plain "-3" false; plain validation_text true])
        (setInput "-3" asked_days)), []).
Proof.
  refine (proj1 (rejected_day_count_keeps_state found
                   (setInput "-3" asked_days) _ _) _); reflexivity.
Defined.

(** The handler raises the in-flight flag before it awaits anything. *)
Lemma startSend_in_flight {Num : Type} (s : State Num) :
  isLoading (startSend s) = true.
Proof. reflexivity. Qed.

(** C9.  With the in-flight flag set, [handleSend] returns at once: the
    state is the one it was called with, so there is no transition and
    no new message, and no request is sent. *)
Theorem in_flight_submission_ignored {Num : Type} (net : Network Num)
    (s : State Num) :
  isLoading s = true -> handleSend net s = (s, []).
Proof.
  intros Hload. unfold handleSend. now rewrite Hload, orb_true_r.
Qed.

Lemma in_flight_submission_ignored_witness :
  handleSend found (setInput "Rome" (startSend (setInput "Paris" initial))) =
  (setInput "Rome" (startSend (setInput "Paris" initial)), []).
Proof. apply in_flight_submission_ignored. reflexivity. Defined.

(** * Further properties of the composer *)

(** X1. The plan has one entry per day for every integer [days]: a day
    count of zero or less gives the empty plan, since the loop runs no
    iteration. *)
Theorem plan_length {Num : Type} (attractions food : list (Place Num))
    (days : Z) :
  Z.of_nat (length (generateItinerary attractions food days)) = Z.max 0 days.
Proof.
  rewrite generateItinerary_days, length_map, length_seq. lia.
Qed.

(** A slice with bounds in order is a [take] of a [drop]. *)
Lemma slice_take_drop {A : Type} (l : list A) (start end_ : Z) :
  0 <= start <= end_ ->
  slice l start end_ =
  take (Z.to_nat end_ - Z.to_nat start) (drop (Z.to_nat start) l).
Proof.
  intros H. apply list_eq. intros j.
  rewrite slice_lookup, lookup_take, lookup_drop by lia.
  repeat case_decide; solve [reflexivity | lia].
Qed.

(** The slices of the first [n] days, put end to end, are the first
    [n * perDay] elements of the list. *)
Lemma day_slices_concat {A : Type} (l : list A) (perDay : Z) (n : nat) :
  0 <= perDay ->
  concat (map (fun k => slice l (Z.of_nat k * perDay)
                          ((Z.of_nat k + 1) * perDay)) (seq 0 n)) =
  take (n * Z.to_nat perDay) l.
Proof.
  intros Hp. induction n as [|n IH].
  - reflexivity.
  - rewrite seq_S, map_app, concat_app, IH. simpl concat.
    rewrite app_nil_r, slice_take_drop by nia.
    replace (Z.to_nat ((Z.of_nat n + 1) * perDay) -
             Z.to_nat (Z.of_nat n * perDay))%nat
      with (Z.to_nat perDay) by nia.
    replace (Z.to_nat (Z.of_nat n * perDay)) with (n * Z.to_nat perDay)%nat
      by nia.
    rewrite take_take_drop. f_equal. lia.
Qed.

(** X2. For [days >= 1] the slices of the days of the trip, in day order,
    make up the first [days * perDayAttractions] attractions in their
    input order, and likewise for food: the slices do not overlap, skip
    nothing before their end and never wrap around. *)
Theorem day_slices_are_a_prefix {Num : Type}
    (attractions food : list (Place Num)) (days : Z) :
  1 <= days ->
  concat (map (fun k => dayAttractions attractions days (Z.of_nat k))
            (seq 0 (Z.to_nat days))) =
    take (Z.to_nat (days * perDayAttractions attractions days)) attractions /\
  concat (map (fun k => dayFood food days (Z.of_nat k))
            (seq 0 (Z.to_nat days))) =
    take (Z.to_nat (days * perDayFood food days)) food.
Proof.
  intros Hdays.
  pose proof (perDay_bounds attractions days _ Hdays eq_refl) as HA.
  pose proof (perDay_bounds food days _ Hdays eq_refl) as HF.
  split.
  - unfold dayAttractions. fold (perDayAttractions attractions days) in HA.
    rewrite day_slices_concat by lia. f_equal. nia.
  - unfold dayFood. fold (perDayFood food days) in HF.
    rewrite day_slices_concat by lia. f_equal. nia.
Qed.

Lemma day_slices_are_a_prefix_witness :
  concat (map (fun k => dayAttractions (map place ["a"; "b"; "c"; "d"; "e"]%string)
                          2 (Z.of_nat k))
            (seq 0 (Z.to_nat 2))) =
    take (Z.to_nat (2 * perDayAttractions
                          (map place ["a"; "b"; "c"; "d"; "e"]%string) 2))
      (map place ["a"; "b"; "c"; "d"; "e"]%string) /\
  concat (map (fun k => dayFood (map place ["x"]%string) 2 (Z.of_nat k))
            (seq 0 (Z.to_nat 2))) =
    take (Z.to_nat (2 * perDayFood (map place ["x"]%string) 2))
      (map place ["x"]%string).
Proof. apply day_slices_are_a_prefix. lia. Defined.

(** The slice of a day has no more elements than [perDay]. *)
Lemma day_slice_short {A : Type} (l : list A) (perDay i : Z) (j : nat) :
  0 <= perDay -> 0 <= i -> perDay <= Z.of_nat j ->
  slice l (i * perDay) ((i + 1) * perDay) !! j = None.
Proof.
  intros Hp Hi Hj. apply lookup_ge_None_2.
  etransitivity; [apply slice_length; nia|]. nia.
Qed.

(** X3. Short lists leave roles to their fallbacks on every day: with at
    most [2 * days] attractions no day has an evening attraction, with at
    most [days] attractions no day has an afternoon attraction either,
    and with at most [days] food places no day has a dinner place. *)
Theorem few_places_leave_fallbacks {Num : Type}
    (attractions food : list (Place Num)) (days i : Z) :
  1 <= days -> 0 <= i ->
  (Z.of_nat (length attractions) <= 2 * days ->
   evening (dayRoles attractions food days i) = evening_fallback) /\
  (Z.of_nat (length attractions) <= days ->
   afternoon (dayRoles attractions food days i) = afternoon_fallback) /\
  (Z.of_nat (length food) <= days ->
   dinner (dayRoles attractions food days i) = dinner_fallback).
Proof.
  intros Hdays Hi.
  pose proof (perDay_bounds attractions days _ Hdays eq_refl) as HA.
  pose proof (perDay_bounds food days _ Hdays eq_refl) as HF.
  unfold dayRoles, dayAttractions, dayFood, perDayAttractions, perDayFood.
  simpl. repeat split; intros Hlen.
  - rewrite day_slice_short; [reflexivity | lia | lia |].
    apply (Math_ceil_div_spec _ days 2) in Hlen; lia.
  - rewrite day_slice_short; [reflexivity | lia | lia |].
    assert (H : Z.of_nat (length attractions) <= 1 * days) by lia.
    apply Math_ceil_div_spec in H; lia.
  - rewrite day_slice_short; [reflexivity | lia | lia |].
    assert (H : Z.of_nat (length food) <= 1 * days) by lia.
    apply Math_ceil_div_spec in H; lia.
Qed.

Lemma few_places_leave_fallbacks_witness :
  evening (dayRoles (map place ["a"; "b"; "c"; "d"]%string) [] 2 0) =
  evening_fallback.
Proof.
  refine (proj1 (few_places_leave_fallbacks
            (map place ["a"; "b"; "c"; "d"]%string) [] 2 0 _ _) _);
    simpl; lia.
Defined.

(** With more than [2 * days] places the slice of a day has three slots. *)
Lemma perDay_full (len days : Z) :
  1 <= days -> 2 * days < len -> Z.min 3 (Math_ceil_div len days) = 3.
Proof.
  intros Hdays Hlen.
  destruct (Z_le_gt_dec (Math_ceil_div len days) 2) as [H|H]; [|lia].
  apply Math_ceil_div_spec in H; lia.
Qed.

(** X4. With [3 * days] attractions or more, all with a name, no day of
    the trip has an attraction fallback: day [k] has the attractions at
    positions [3k], [3k+1] and [3k+2] as morning, afternoon and evening. *)
Theorem stocked_trip_has_no_attraction_fallback {Num : Type}
    (attractions food : list (Place Num)) (days : Z) (k : nat) :
  1 <= days -> 3 * days <= Z.of_nat (length attractions) ->
  Z.of_nat k < days ->
  (forall p, p ∈ attractions -> name p <> EmptyString) ->
  exists p0 p1 p2,
    attractions !! (3 * k)%nat = Some p0 /\
    attractions !! (3 * k + 1)%nat = Some p1 /\
    attractions !! (3 * k + 2)%nat = Some p2 /\
    dayRoles attractions food days (Z.of_nat k) =
    mkRoles (name p0) (lunch (dayRoles attractions food days (Z.of_nat k)))
      (name p1) (dinner (dayRoles attractions food days (Z.of_nat k)))
      (name p2).
Proof.
  intros Hdays Hlen Hk Hnames.
  destruct (lookup_lt_is_Some_2 attractions (3 * k)) as [p0 H0]; [lia|].
  destruct (lookup_lt_is_Some_2 attractions (3 * k + 1)) as [p1 H1]; [lia|].
  destruct (lookup_lt_is_Some_2 attractions (3 * k + 2)) as [p2 H2]; [lia|].
  exists p0, p1, p2. repeat (split; [assumption|]).
  assert (Hn : forall j p, attractions !! j = Some p ->
                           truthy (name p) = true).
  { intros j p Hp. apply list_elem_of_lookup_2, Hnames in Hp.
    destruct (name p); [congruence | reflexivity]. }
  unfold dayRoles, dayAttractions, perDayAttractions. simpl.
  rewrite perDay_full by lia.
  rewrite !slice_lookup by lia.
  repeat case_decide; try lia.
  replace (Z.to_nat (Z.of_nat k * 3) + 0)%nat with (3 * k)%nat by lia.
  replace (Z.to_nat (Z.of_nat k * 3) + 1)%nat with (3 * k + 1)%nat by lia.
  replace (Z.to_nat (Z.of_nat k * 3) + 2)%nat with (3 * k + 2)%nat by lia.
  rewrite H0, H1, H2. unfold name_or.
  now rewrite (Hn _ _ H0), (Hn _ _ H1), (Hn _ _ H2).
Qed.

Lemma stocked_trip_has_no_attraction_fallback_witness :
  exists p0 p1 p2,
    map place ["a"; "b"; "c"; "d"; "e"; "f"]%string !! (3 * 1)%nat = Some p0 /\
    map place ["a"; "b"; "c"; "d"; "e"; "f"]%string !! (3 * 1 + 1)%nat
      = Some p1 /\
    map place ["a"; "b"; "c"; "d"; "e"; "f"]%string !! (3 * 1 + 2)%nat
      = Some p2 /\
    dayRoles (map place ["a"; "b"; "c"; "d"; "e"; "f"]%string) [] 2
      (Z.of_nat 1) =
    mkRoles (name p0)
      (lunch (dayRoles (map place ["a"; "b"; "c"; "d"; "e"; "f"]%string) []
                2 (Z.of_nat 1)))
      (name p1)
      (dinner (dayRoles (map place ["a"; "b"; "c"; "d"; "e"; "f"]%string) []
                 2 (Z.of_nat 1)))
      (name p2).
Proof.
  apply stocked_trip_has_no_attraction_fallback.
  - lia.
  - simpl. lia.
  - simpl. lia.
  - intros p Hp. simpl in Hp.
    repeat (apply elem_of_cons in Hp as [-> | Hp]; [discriminate|]).
    now apply elem_of_nil in Hp.
Defined.

(** X5. With more than [2 * days] food places each day has three food
    slots, and the third is not printed: replacing the food place at a
    position [3q + 2] by any other place leaves the plan as it is. *)
Theorem third_food_slot_not_shown {Num : Type}
    (attractions food : list (Place Num)) (days : Z) (q : nat)
    (p : Place Num) :
  1 <= days -> 2 * days < Z.of_nat (length food) ->
  generateItinerary attractions (<[(3 * q + 2)%nat := p]> food) days =
  generateItinerary attractions food days.
Proof.
  intros Hdays Hlen. rewrite !generateItinerary_days.
  apply map_ext. intros k.
  unfold entry, dayRoles, dayFood, perDayFood. f_equal.
  rewrite length_insert, perDay_full by lia.
  rewrite !slice_lookup by lia.
  repeat case_decide; try lia.
  rewrite !list_lookup_insert_ne by lia. reflexivity.
Qed.

Lemma third_food_slot_not_shown_witness :
  generateItinerary [] (<[(3 * 0 + 2)%nat := place "z"]>
                          (map place ["a"; "b"; "c"]%string)) 1 =
  generateItinerary [] (map place ["a"; "b"; "c"]%string) 1.
Proof. apply third_food_slot_not_shown; simpl; lia. Defined.

(** Slicing commutes with mapping. *)
Lemma slice_fmap {A B : Type} (f : A -> B) (l : list A) (start end_ : Z) :
  f <$> slice l start end_ = slice (f <$> l) start end_.
Proof.
  unfold slice. now rewrite fmap_take, fmap_drop, length_fmap.
Qed.

Lemma name_or_fmap {Num Num' : Type} (o : option (Place Num))
    (o' : option (Place Num')) (fallback : string) :
  name <$> o = name <$> o' -> name_or o fallback = name_or o' fallback.
Proof.
  destruct o as [p|], o' as [p'|]; simpl; intros H;
    solve [reflexivity | discriminate | injection H as ->; reflexivity].
Qed.

(** X6. The plan is made from the names of the places and from nothing
    else: two inputs with the same names in the same order give the same
    plan, whatever their addresses, categories, identifiers and
    coordinates. *)
Theorem plan_depends_on_names_only {Num Num' : Type}
    (attractions food : list (Place Num))
    (attractions' food' : list (Place Num')) (days : Z) :
  name <$> attractions = name <$> attractions' ->
  name <$> food = name <$> food' ->
  generateItinerary attractions food days =
  generateItinerary attractions' food' days.
Proof.
  intros HA HF. rewrite !generateItinerary_days.
  apply map_ext. intros k.
  assert (HlA : length attractions = length attractions')
    by (rewrite <- (length_fmap name attractions), HA; apply length_fmap).
  assert (HlF : length food = length food')
    by (rewrite <- (length_fmap name food), HF; apply length_fmap).
  assert (Ha : forall j, name <$> dayAttractions attractions days (Z.of_nat k) !! j
                       = name <$> dayAttractions attractions' days (Z.of_nat k) !! j).
  { intros j. unfold dayAttractions, perDayAttractions.
    rewrite <- !list_lookup_fmap, !slice_fmap, HA, HlA. reflexivity. }
  assert (Hf : forall j, name <$> dayFood food days (Z.of_nat k) !! j
                       = name <$> dayFood food' days (Z.of_nat k) !! j).
  { intros j. unfold dayFood, perDayFood.
    rewrite <- !list_lookup_fmap, !slice_fmap, HF, HlF. reflexivity. }
  unfold entry, dayRoles. f_equal.
  f_equal; apply name_or_fmap; auto.
Qed.

Lemma plan_depends_on_names_only_witness :
  generateItinerary [place "Prado"] [place "Botin"] 2 =
  generateItinerary
    [mkPlace "Prado" ["tourism"]%string "Madrid" "p1" (Some 40) (Some (-3))]
    [mkPlace "Botin" [] "" "p2" None None] 2.
Proof. apply plan_depends_on_names_only; reflexivity. Defined.

(** * Further properties of the controller *)

(** Case analysis on the path [handleSend] takes: dropped by the guard;
    destination found, not found (no result, or a failed request); day
    count rejected (zero or negative, or NaN); plan made, or thrown. *)
Ltac handleSend_paths net s :=
  unfold handleSend, fetchLocationCoordinates, try_body, fetchPlaces,
    fetchWeatherForecast;
  destruct (negb (truthy (trim (input s))) || isLoading s) eqn:Hguard;
  [| destruct (step s) eqn:Hstep;
     [ destruct (geocode net (input s)) as [[|result results]|] eqn:Hgeo
     | destruct (parseInt (trim (input s))) as [days|] eqn:Hparse;
       [ destruct (Z.leb_spec days 0) as [Hle|Hgt];
         [| destruct (currentLocation s) as [loc|] eqn:Hloc]
       | ] ] ];
  simpl.

(** What a submission does to the transcript. *)
Lemma handleSend_messages {Num : Type} (net : Network Num) (s : State Num) :
  messages (fst (handleSend net s)) = messages s \/
  exists reply,
    isBot reply = true /\
    messages (fst (handleSend net s)) =
    messages s ++ [plain (input s) false; reply].
Proof.
  handleSend_paths net s; try (left; reflexivity);
    right; rewrite <- ?app_assoc; simpl; eexists; split;
    try reflexivity; reflexivity.
Qed.

(** X7. A submission that passes the guard appends exactly two messages
    to the transcript, the user's text and then one reply of the bot,
    whatever path it takes (destination found or not, day count rejected,
    plan made or failure); a submission stopped by the guard appends
    nothing.  Earlier messages are never changed. *)
Theorem submission_gets_one_reply {Num : Type} (net : Network Num)
    (s : State Num) :
  if negb (truthy (trim (input s))) || isLoading s
  then messages (fst (handleSend net s)) = messages s
  else exists reply,
         isBot reply = true /\
         messages (fst (handleSend net s)) =
         messages s ++ [plain (input s) false; reply].
Proof.
  handleSend_paths net s; try reflexivity;
    rewrite <- ?app_assoc; simpl; eexists; split;
    try reflexivity; reflexivity.
Qed.

Lemma alternates_app {Num : Type} (l l' : list (Message Num)) (bot : bool) :
  alternates bot l = true ->
  alternates (if Nat.even (length l) then bot else negb bot) l' = true ->
  alternates bot (l ++ l') = true.
Proof.
  revert bot. induction l as [|m l IH]; intros bot Hl Hl'.
  - exact Hl'.
  - simpl in Hl. apply andb_prop in Hl as [Hm Hl].
    cbn [app alternates]. rewrite Hm. simpl. apply IH; [assumption|].
    cbn [length] in Hl'. rewrite Nat.even_succ, <- Nat.negb_even in Hl'.
    destruct (Nat.even (length l)); simpl in *;
      now rewrite ?negb_involutive.
Qed.

(** X8. In every reachable state the transcript opens with the greeting
    of the bot, bot and user then speak in turn, and the last message is
    from the bot. *)
Theorem transcript_alternates {Num : Type} (s : State Num) :
  reachable s ->
  exists rest,
    messages s = plain greeting true :: rest /\
    alternates false rest = true /\
    Nat.even (length rest) = true.
Proof.
  induction 1 as [|s v Hr IH|net s Hr IH].
  - exists []. repeat split.
  - exact IH.
  - destruct IH as (rest & Hm & Halt & Heven).
    destruct (handleSend_messages net s) as [->|(reply & Hbot & ->)].
    + now exists rest.
    + exists (rest ++ [plain (input s) false; reply]). rewrite Hm.
      repeat split.
      * apply alternates_app; [assumption|].
        rewrite Heven. simpl. now rewrite Hbot.
      * rewrite length_app, Nat.even_add, Heven. reflexivity.
Qed.

Lemma transcript_alternates_witness :
  exists rest,
    messages cycle_done = plain greeting true :: rest /\
    alternates false rest = true /\
    Nat.even (length rest) = true.
Proof.
  apply transcript_alternates.
  apply reach_send, reach_type, reach_send, reach_type, reach_initial.
Defined.

(** X9. The requests of one submission are none at all, or one geocoding
    request for the text as typed, sent from the destination step, or,
    from the day-count step with a stored location and a positive day
    count [d], the two place requests (sights, then catering), each
    limited to [5 * d] places around the stored location, followed by one
    forecast request for [d] days.  Nothing else is ever sent. *)
Theorem requests_of_submission {Num : Type} (net : Network Num)
    (s : State Num) :
  snd (handleSend net s) = [] \/
  (step s = StepDestination /\
   snd (handleSend net s) = [GeocodeCall (input s)]) \/
  (step s = StepDays /\
   exists loc d,
     currentLocation s = Some loc /\
     parseInt (trim (input s)) = Some d /\ 0 < d /\
     snd (handleSend net s) =
     [PlacesCall loc sights (d * 5); PlacesCall loc catering (d * 5);
      WeatherCall (lat loc) (lon loc) d]).
Proof.
  handleSend_paths net s; try (left; reflexivity).
  - right; left. now split.
  - right; left. now split.
  - right; left. now split.
  - right; right. split; [reflexivity|]. exists loc, days. now repeat split.
Qed.

(** X10. A destination that is not found, because the geocoder has no
    result for it or because the request failed, leaves the controller
    where it was: one request was sent, the transcript has the user's
    text and the not-found reply, the text area is cleared, and the step,
    the stored location and the stored destination are unchanged. *)
Theorem unresolved_destination_stays {Num : Type} (net : Network Num)
    (s : State Num) :
  isLoading s = false -> truthy (trim (input s)) = true ->
  step s = StepDestination ->
  geocode net (input s) = None \/ geocode net (input s) = Some [] ->
  handleSend net s =
  (setInput ""
     (setMessages
        (fun prev => prev ++ [plain (input s) false; plain not_found_text true])
        s),
   [GeocodeCall (input s)]).
Proof.
  intros Hload Hinput Hstep Hgeo.
  unfold handleSend, fetchLocationCoordinates.
  rewrite Hload, Hinput, Hstep. simpl negb. cbv iota.
  destruct s; simpl in *; subst.
  destruct Hgeo as [-> | ->];
    unfold setIsLoading, setInput, setMessages; simpl;
    now rewrite <- app_assoc.
Qed.

Lemma unresolved_destination_stays_witness :
  handleSend offline (setInput "Atlantis" initial) =
  (setInput ""
     (setMessages
        (fun prev => prev ++ [plain "Atlantis" false;
                              plain not_found_text true])
        (setInput "Atlantis" initial)),
   [GeocodeCall "Atlantis"%string]).
Proof.
  apply (unresolved_destination_stays offline (setInput "Atlantis" initial));
    solve [reflexivity | left; reflexivity].
Defined.

Lemma parseInt_nonblank (v : string) (d : Z) :
  parseInt (trim v) = Some d -> truthy (trim v) = true.
Proof. destruct (trim v); [discriminate | reflexivity]. Qed.

Arguments generateItinerary : simpl never.

(** Runs the state updates of a path, innermost first. *)
Ltac run_setters :=
  cbv [setIsLoading setStep setMessages setInput setCurrentLocation
       setDestination setAllPlaces setTripDays messages input isLoading
       currentLocation allPlaces step destination tripDays fst snd negb orb].

(** The path of a resolved destination. *)
Lemma handleSend_resolved {Num : Type} (net : Network Num) (s : State Num)
    (result : Location Num) (results : list (Location Num)) :
  isLoading s = false -> truthy (trim (input s)) = true ->
  step s = StepDestination ->
  geocode net (input s) = Some (result :: results) ->
  handleSend net s =
  (mkState
     (messages s ++
      [plain (input s) false; plain (prompt_text (input s)) true])
     "" false (Some (mkLocation (lat result) (lon result)))
     (allPlaces s) StepDays (input s) (tripDays s),
   [GeocodeCall (input s)]).
Proof.
  intros Hload Hinput Hstep Hgeo.
  destruct s as [ms text loading location kept st dest trip].
  simpl in *. subst loading st.
  unfold handleSend, fetchLocationCoordinates.
  cbn [input isLoading step]. rewrite Hinput, Hgeo.
  run_setters. rewrite <- ?app_assoc. reflexivity.
Qed.

(** The path of a plan. *)
Lemma handleSend_plan {Num : Type} (net : Network Num) (s : State Num)
    (loc : Location Num) (d : Z) :
  isLoading s = false -> step s = StepDays ->
  currentLocation s = Some loc ->
  parseInt (trim (input s)) = Some d -> 0 < d ->
  handleSend net s =
  (mkState
     (messages s ++
      [plain (input s) false;
       mkMessage (plan_text (destination s)) true
         (Some (fst (fetchPlaces net (Some loc) sights d)))
         (Some (fst (fetchPlaces net (Some loc) catering d)))
         (Some (generateItinerary
                  (fst (fetchPlaces net (Some loc) sights d))
                  (fst (fetchPlaces net (Some loc) catering d)) d))
         (Some (fst (fetchWeatherForecast net (lat loc) (lon loc) d)))])
     "" false (Some loc)
     (fst (fetchPlaces net (Some loc) sights d) ++
      fst (fetchPlaces net (Some loc) catering d))
     StepDestination (destination s) (Some d),
   [PlacesCall loc sights (d * 5); PlacesCall loc catering (d * 5);
    WeatherCall (lat loc) (lon loc) d]).
Proof.
  intros Hload Hstep Hloc Hparse Hd.
  pose proof (parseInt_nonblank _ d Hparse) as Hv.
  destruct s as [ms text loading location kept st dest trip].
  simpl in *. subst loading st location.
  unfold handleSend, try_body, fetchPlaces, fetchWeatherForecast.
  cbn [input isLoading step currentLocation]. rewrite Hv, Hparse.
  destruct (Z.leb_spec d 0) as [?|_]; [lia|].
  run_setters. rewrite <- ?app_assoc. reflexivity.
Qed.

(** X11. A whole cycle.  From the destination step, a text [t] that the
    geocoder resolves and then a text [v] that parses as [d > 0] bring
    the controller back to the destination step.  The requests of the
    second submission go to the first result of the geocoder; the
    transcript gains the two texts of the user, the prompt and one plan
    message, which names [t] and carries the fetched attractions and
    food, the itinerary made from them for [d] days and the forecast; the
    places kept for the map are the attractions followed by the food. *)
Theorem full_cycle {Num : Type} (net net' : Network Num) (s : State Num)
    (v : string) (d : Z) (result : Location Num)
    (results : list (Location Num)) :
  isLoading s = false -> step s = StepDestination ->
  truthy (trim (input s)) = true ->
  geocode net (input s) = Some (result :: results) ->
  parseInt (trim v) = Some d -> 0 < d ->
  let t := input s in
  let loc := mkLocation (lat result) (lon result) in
  let A := fst (fetchPlaces net' (Some loc) sights d) in
  let F := fst (fetchPlaces net' (Some loc) catering d) in
  let W := fst (fetchWeatherForecast net' (lat result) (lon result) d) in
  handleSend net' (setInput v (fst (handleSend net s))) =
  (mkState
     (messages s ++
      [plain t false; plain (prompt_text t) true; plain v false;
       mkMessage (plan_text t) true (Some A) (Some F)
         (Some (generateItinerary A F d)) (Some W)])
     "" false (Some loc) (A ++ F) StepDestination t (Some d),
   [PlacesCall loc sights (d * 5); PlacesCall loc catering (d * 5);
    WeatherCall (lat result) (lon result) d]).
Proof.
  intros Hload Hstep Hinput Hgeo Hparse Hd t loc A F W.
  rewrite (handleSend_resolved net s result results) by assumption.
  cbn [fst].
  rewrite (handleSend_plan net' _ loc d) by (assumption || reflexivity).
  unfold setInput. cbn [messages input destination].
  now rewrite <- app_assoc.
Qed.

Lemma full_cycle_witness :
  handleSend louvre
    (setInput "2" (fst (handleSend found (setInput "Paris" initial)))) =
  (mkState
     (messages (setInput "Paris" initial) ++
      [plain "Paris" false; plain (prompt_text "Paris") true;
       plain "2" false;
       mkMessage (plan_text "Paris") true
         (Some (fst (fetchPlaces louvre (Some paris) sights 2)))
         (Some (fst (fetchPlaces louvre (Some paris) catering 2)))
         (Some (generateItinerary
                  (fst (fetchPlaces louvre (Some paris) sights 2))
                  (fst (fetchPlaces louvre (Some paris) catering 2)) 2))
         (Some (fst (fetchWeatherForecast louvre 48 2 2)))])
     "" false (Some paris)
     (fst (fetchPlaces louvre (Some paris) sights 2) ++
      fst (fetchPlaces louvre (Some paris) catering 2))
     StepDestination "Paris" (Some 2),
   [PlacesCall paris sights (2 * 5); PlacesCall paris catering (2 * 5);
    WeatherCall 48 2 2]).
Proof.
  refine (full_cycle found louvre (setInput "Paris" initial) "2" 2 paris []
            _ _ _ _ _ _); solve [reflexivity | lia].
Defined.

(** X12. When both place requests fail the plan is still made: the plan
    message has no attraction and no food place, its itinerary has [d]
    entries that are all the template filled with the fallbacks, and the
    controller is back in the destination step with no place kept for
    the map. *)
Theorem failed_places_give_fallback_plan {Num : Type} (net : Network Num)
    (s : State Num) (loc : Location Num) (d : Z) :
  isLoading s = false -> step s = StepDays ->
  currentLocation s = Some loc ->
  parseInt (trim (input s)) = Some d -> 0 < d ->
  places net loc sights (d * 5) = None ->
  places net loc catering (d * 5) = None ->
  let s' := fst (handleSend net s) in
  step s' = StepDestination /\
  allPlaces s' = [] /\
  messages s' =
  messages s ++
  [plain (input s) false;
   mkMessage (plan_text (destination s)) true (Some []) (Some [])
     (Some (replicate (Z.to_nat d) (template fallback_roles)))
     (Some (fst (fetchWeatherForecast net (lat loc) (lon loc) d)))].
Proof.
  intros Hload Hstep Hloc Hparse Hd HA HF s'. subst s'.
  rewrite (handleSend_plan net s loc d) by assumption.
  unfold fetchPlaces. rewrite HA, HF. cbn [fst step allPlaces messages app].
  now rewrite generateItinerary_no_places.
Qed.

Lemma failed_places_give_fallback_plan_witness :
  step (fst (handleSend offline (setInput "2" asked_days))) = StepDestination /\
  allPlaces (fst (handleSend offline (setInput "2" asked_days))) = [] /\
  messages (fst (handleSend offline (setInput "2" asked_days))) =
  messages (setInput "2" asked_days) ++
  [plain (input (setInput "2" asked_days)) false;
   mkMessage (plan_text (destination (setInput "2" asked_days))) true
     (Some []) (Some [])
     (Some (replicate (Z.to_nat 2) (template fallback_roles)))
     (Some (fst (fetchWeatherForecast offline (lat paris) (lon paris) 2)))].
Proof.
  refine (failed_places_give_fallback_plan offline (setInput "2" asked_days)
            paris 2 _ _ _ _ _ _ _); solve [reflexivity | lia].
Defined.

Lemma toPlace_named {Num : Type} (feature : Feature Num) :
  named (toPlace feature).
Proof.
  unfold named, toPlace, string_or. simpl.
  destruct (f_name feature) as [n|]; [|reflexivity].
  now destruct (truthy n) eqn:E.
Qed.

Lemma fetchPlaces_named {Num : Type} (net : Network Num)
    (location : option (Location Num)) (category : string) (days : Z) :
  Forall named (fst (fetchPlaces net location category days)).
Proof.
  unfold fetchPlaces. destruct location as [loc|]; [|constructor].
  simpl. destruct (places net loc category (days * 5)); [|constructor].
  apply Forall_forall. intros p Hp.
  apply list_elem_of_fmap in Hp as (feature & -> & _).
  apply toPlace_named.
Qed.

(** X13. Every place that [fetchPlaces] returns has a name that is not
    empty: a missing or empty name became ["Unnamed Place"].  So in a
    plan made from fetched places a filled slot always shows the name of
    its place, never the fallback of the role. *)
Theorem fetched_places_are_named {Num : Type} (net : Network Num)
    (location : option (Location Num)) (category : string) (days : Z)
    (p : Place Num) :
  p ∈ fst (fetchPlaces net location category days) ->
  named p /\
  forall fallback, name_or (Some p) fallback = name p.
Proof.
  intros Hp.
  pose proof (fetchPlaces_named net location category days) as H.
  rewrite Forall_forall in H. specialize (H p Hp). split; [exact H|].
  intros fallback. unfold name_or. now rewrite H.
Qed.

Lemma fetched_places_are_named_witness :
  named (mkPlace "Unnamed Place" [] "" "p3" None None : Place Z) /\
  forall fallback,
    name_or (Some (mkPlace "Unnamed Place" [] "" "p3" None None : Place Z))
      fallback =
    name (mkPlace "Unnamed Place" [] "" "p3" None None : Place Z).
Proof.
  apply (fetched_places_are_named louvre (Some paris) sights 1).
  vm_compute. do 2 apply list_elem_of_further. apply list_elem_of_here.
Defined.

(** X14. In every reachable state each place kept for the map has a name
    that is not empty. *)
Theorem map_places_are_named {Num : Type} (s : State Num) :
  reachable s -> Forall named (allPlaces s).
Proof.
  induction 1 as [|s v Hr IH|net s Hr IH].
  - constructor.
  - exact IH.
  - pose proof (fetchPlaces_named net (currentLocation s) sights) as HA.
    pose proof (fetchPlaces_named net (currentLocation s) catering) as HF.
    revert HA HF. handleSend_paths net s; intros HA HF; try exact IH.
    + apply Forall_app. split; [apply (HA days) | apply (HF days)].
    + constructor.
Qed.

Lemma map_places_are_named_witness :
  Forall named
    (allPlaces (fst (handleSend louvre (setInput "1" asked_days)))).
Proof.
  apply map_places_are_named.
  apply reach_send, reach_type, reach_send, reach_type, reach_initial.
Defined.

(** X15. In every reachable state a stored day count is positive, and in
    the day-count step the stored destination is not blank. *)
Theorem stored_trip_is_valid {Num : Type} (s : State Num) :
  reachable s ->
  (forall d, tripDays s = Some d -> 0 < d) /\
  (step s = StepDays -> truthy (trim (destination s)) = true).
Proof.
  induction 1 as [|s v Hr IH|net s Hr IH].
  - split; discriminate.
  - exact IH.
  - destruct IH as [IHd IHt]. revert IHd IHt.
    handleSend_paths net s; intros IHd IHt;
      (split;
       [ first [exact IHd | intros d Hd; injection Hd as <-; lia]
       | first [ exact IHt
               | rewrite Hstep; discriminate
               | discriminate
               | intros _; apply IHt; reflexivity
               | intros _ ]]).
    apply orb_false_iff in Hguard as [Hguard _].
    now apply negb_false_iff in Hguard.
Qed.

Lemma stored_trip_is_valid_witness :
  (forall d, tripDays asked_days = Some d -> 0 < d) /\
  (step asked_days = StepDays ->
   truthy (trim (destination asked_days)) = true).
Proof.
  apply stored_trip_is_valid.
  apply reach_send, reach_type, reach_initial.
Defined.

(** X16. The controller is never stuck: in every reachable state the
    in-flight flag is down, so a submission whose text is not blank is
    taken and answered with one reply of the bot. *)
Theorem controller_never_stuck {Num : Type} (net : Network Num)
    (s : State Num) :
  reachable s -> truthy (trim (input s)) = true ->
  isLoading s = false /\
  isLoading (fst (handleSend net s)) = false /\
  exists reply,
    isBot reply = true /\
    messages (fst (handleSend net s)) =
    messages s ++ [plain (input s) false; reply].
Proof.
  intros Hr Hinput. pose proof (reachable_at_rest s Hr) as Hload.
  split; [assumption|]. split; [now apply handleSend_lowers_flag|].
  revert Hload Hinput. handleSend_paths net s; intros Hload Hinput;
    try (rewrite Hload, Hinput in Hguard; discriminate Hguard);
    rewrite <- ?app_assoc; simpl; eexists; split;
    try reflexivity; reflexivity.
Qed.

Lemma controller_never_stuck_witness :
  isLoading (setInput "Rome" cycle_done) = false /\
  isLoading (fst (handleSend offline (setInput "Rome" cycle_done))) = false /\
  exists reply,
    isBot reply = true /\
    messages (fst (handleSend offline (setInput "Rome" cycle_done))) =
    messages (setInput "Rome" cycle_done) ++
    [plain (input (setInput "Rome" cycle_done)) false; reply].
Proof.
  apply controller_never_stuck.
  - apply reach_type, reach_send, reach_type, reach_send, reach_type,
      reach_initial.
  - reflexivity.
Defined.

Lemma dropOne_white (c : ascii) (rest : string) :
  ascii_white c = true -> dropOne white_space (String c rest) = Some rest.
Proof.
  destruct c as [[] [] [] [] [] [] [] []]; intros H;
    solve [discriminate H | reflexivity].
Qed.

Lemma trimStart_all_white (v : string) :
  forall fuel : nat,
    (String.length v <= fuel)%nat -> all_white v = true ->
    dropWhile_ws white_space fuel v = EmptyString.
Proof.
  induction v as [|c v IH]; intros fuel Hfuel Hv.
  - now destruct fuel.
  - simpl in Hv. apply andb_prop in Hv as [Hc Hv].
    destruct fuel as [|fuel]; simpl in Hfuel; [lia|].
    cbn [dropWhile_ws]. rewrite (dropOne_white c v Hc).
    apply IH; [lia | assumption].
Qed.

Lemma trim_all_white (v : string) : all_white v = true -> trim v = EmptyString.
Proof.
  intros Hv. unfold trim, trimStart.
  now rewrite (trimStart_all_white v _ (Nat.le_refl _) Hv).
Qed.

(** X17. A text made only of spaces, tabs and line breaks is not a
    submission: in every state the handler leaves the state as it is,
    appends no message and sends no request. *)
Theorem white_submission_ignored {Num : Type} (net : Network Num)
    (s : State Num) :
  all_white (input s) = true -> handleSend net s = (s, []).
Proof.
  intros Hv. unfold handleSend. now rewrite (trim_all_white _ Hv).
Qed.

Lemma white_submission_ignored_witness :
  handleSend found (setInput (bytes [32; 9; 10; 32]%nat) asked_days) =
  (setInput (bytes [32; 9; 10; 32]%nat) asked_days, []).
Proof. apply white_submission_ignored. reflexivity. Defined.

(** The path of a rejected day count that is not blank. *)
Lemma handleSend_rejected {Num : Type} (net : Network Num) (s : State Num) :
  isLoading s = false -> step s = StepDays ->
  truthy (trim (input s)) = true -> rejected_day_count (input s) = true ->
  handleSend net s =
  (mkState
     (messages s ++ [plain (input s) false; plain validation_text true])
     "" false (currentLocation s) (allPlaces s) StepDays (destination s)
     (tripDays s), []).
Proof.
  intros Hload Hstep Hinput Hrej. unfold rejected_day_count in Hrej.
  destruct s as [ms text loading location kept st dest trip].
  simpl in *. subst loading st.
  unfold handleSend. cbn [input isLoading step]. rewrite Hinput.
  destruct (parseInt (trim text)) as [d0|]; [rewrite Hrej|];
    run_setters; rewrite <- ?app_assoc; reflexivity.
Qed.

(** X18. The places kept for the map outlive their plan: when, after a
    plan, a new destination is resolved, the stored location is the new
    one and the controller asks for the day count, while the places kept
    for the map are still those of the previous plan. *)
Theorem map_keeps_old_places {Num : Type} (net net' : Network Num)
    (s : State Num) (loc : Location Num) (d : Z) (v : string)
    (result : Location Num) (results : list (Location Num)) :
  isLoading s = false -> step s = StepDays ->
  currentLocation s = Some loc ->
  parseInt (trim (input s)) = Some d -> 0 < d ->
  truthy (trim v) = true ->
  geocode net' v = Some (result :: results) ->
  let s' := fst (handleSend net' (setInput v (fst (handleSend net s)))) in
  step s' = StepDays /\
  destination s' = v /\
  currentLocation s' = Some (mkLocation (lat result) (lon result)) /\
  allPlaces s' =
  fst (fetchPlaces net (Some loc) sights d) ++
  fst (fetchPlaces net (Some loc) catering d).
Proof.
  intros Hload Hstep Hloc Hparse Hd Hv Hgeo s'. subst s'.
  rewrite (handleSend_plan net s loc d) by assumption. cbn [fst].
  rewrite (handleSend_resolved net' _ result results)
    by (assumption || reflexivity).
  repeat split.
Qed.

Lemma map_keeps_old_places_witness :
  step (fst (handleSend found
               (setInput "Rome"
                  (fst (handleSend louvre (setInput "1" asked_days))))))
    = StepDays /\
  destination (fst (handleSend found
                      (setInput "Rome"
                         (fst (handleSend louvre (setInput "1" asked_days))))))
    = "Rome"%string /\
  currentLocation (fst (handleSend found
                          (setInput "Rome"
                             (fst (handleSend louvre
                                     (setInput "1" asked_days))))))
    = Some (mkLocation (lat paris) (lon paris)) /\
  allPlaces (fst (handleSend found
                    (setInput "Rome"
                       (fst (handleSend louvre (setInput "1" asked_days))))))
    = fst (fetchPlaces louvre (Some paris) sights 1) ++
      fst (fetchPlaces louvre (Some paris) catering 1).
Proof.
  refine (map_keeps_old_places louvre found (setInput "1" asked_days) paris 1
            "Rome" paris [] _ _ _ _ _ _ _); solve [reflexivity | lia].
Defined.

(** X19. A rejected day count loses nothing: after a day count that is
    not blank and is rejected, a day count that parses as [d > 0] sends
    the three requests for the location that was stored and makes the
    plan for the destination that was stored; the transcript holds the
    rejected text, the validation message, the accepted text and the
    plan. *)
Theorem rejected_then_valid_day_count {Num : Type} (net net' : Network Num)
    (s : State Num) (loc : Location Num) (v : string) (d : Z) :
  isLoading s = false -> step s = StepDays ->
  currentLocation s = Some loc ->
  truthy (trim (input s)) = true -> rejected_day_count (input s) = true ->
  parseInt (trim v) = Some d -> 0 < d ->
  let A := fst (fetchPlaces net' (Some loc) sights d) in
  let F := fst (fetchPlaces net' (Some loc) catering d) in
  let W := fst (fetchWeatherForecast net' (lat loc) (lon loc) d) in
  handleSend net' (setInput v (fst (handleSend net s))) =
  (mkState
     (messages s ++
      [plain (input s) false; plain validation_text true; plain v false;
       mkMessage (plan_text (destination s)) true (Some A) (Some F)
         (Some (generateItinerary A F d)) (Some W)])
     "" false (Some loc) (A ++ F) StepDestination (destination s) (Some d),
   [PlacesCall loc sights (d * 5); PlacesCall loc catering (d * 5);
    WeatherCall (lat loc) (lon loc) d]).
Proof.
  intros Hload Hstep Hloc Hinput Hrej Hparse Hd A F W. subst A F W.
  rewrite (handleSend_rejected net s) by assumption. cbn [fst].
  rewrite (handleSend_plan net' _ loc d) by (assumption || reflexivity).
  unfold setInput. cbn [messages input destination].
  now rewrite <- app_assoc.
Qed.

Lemma rejected_then_valid_day_count_witness :
  handleSend louvre
    (setInput "2" (fst (handleSend offline (setInput "abc" asked_days)))) =
  (mkState
     (messages (setInput "abc" asked_days) ++
      [plain (input (setInput "abc" asked_days)) false;
       plain validation_text true; plain "2" false;
       mkMessage (plan_text (destination (setInput "abc" asked_days))) true
         (Some (fst (fetchPlaces louvre (Some paris) sights 2)))
         (Some (fst (fetchPlaces louvre (Some paris) catering 2)))
         (Some (generateItinerary
                  (fst (fetchPlaces louvre (Some paris) sights 2))
                  (fst (fetchPlaces louvre (Some paris) catering 2)) 2))
         (Some (fst (fetchWeatherForecast louvre (lat paris) (lon paris) 2)))])
     "" false (Some paris)
     (fst (fetchPlaces louvre (Some paris) sights 2) ++
      fst (fetchPlaces louvre (Some paris) catering 2))
     StepDestination (destination (setInput "abc" asked_days)) (Some 2),
   [PlacesCall paris sights (2 * 5); PlacesCall paris catering (2 * 5);
    WeatherCall (lat paris) (lon paris) 2]).
Proof.
  refine (rejected_then_valid_day_count offline louvre
            (setInput "abc" asked_days) paris "2" 2 _ _ _ _ _ _ _);
    solve [reflexivity | lia].
Defined.

(** * Exceptions in the day-count branch *)




